(** * jquery.alignwith.js: position codes and alignment arithmetic

    A shallow embedding of [$.fn.alignWith] (src/jquery.alignwith.js), the
    jQuery plug-in that moves elements so that a chosen point of each one
    coincides with a chosen point of a target element.

    Conventions of the embedding:
    - a JavaScript string is a [string] of [ascii] code units;
    - a JavaScript Number is [NaN] or an exact rational ([Qc]): rounding of
      binary64 arithmetic is idealised away, the NaN propagation and the
      behaviour of [parseInt] are kept; the statements keep the order of
      operations of the source, and [Binary64] runs the same callback on
      binary64 numbers where the order matters; [parseInt] of a Number
      is decided on its exact value, and is stated only where that agrees
      with the digits ToString writes;
    - the regular expression literals of the source are terms of a small
      regex syntax, matched by derivatives; every literal of the source is
      anchored by [^] and [$], so [test] is a whole-string match;
    - the body of the [this.each] callback is written in a writer monad
      that records the subject of every [RegExp.prototype.test] call;
    - jQuery itself is outside the source: an element is the record of what
      the plug-in reads from it, and [$.extend] copies the properties that
      are present. *)

From Stdlib Require Import Bool List Arith ZArith QArith Qcanon Qround Qabs Lia.
From Stdlib Require Import Ascii String DecimalString DecimalNat.
From Stdlib Require PrimFloat.
Import ListNotations.

Close Scope Q_scope.
Open Scope string_scope.

(* ------------------------------------------------------------------ *)
(** ** Numbers *)

Module JSNumber.

(** A JavaScript Number, rounding idealised. *)
Inductive number : Type :=
| NaN : number
| Num (q : Qc) : number.

Definition ofZ (z : Z) : number := Num (Q2Qc (inject_Z z)).

Definition zero : number := ofZ 0.

(** [a + b], [a - b] and [a / 2] on Numbers: NaN is absorbing. *)
Definition add (a b : number) : number :=
  match a, b with
  | Num x, Num y => Num (x + y)%Qc
  | _, _ => NaN
  end.

Definition sub (a b : number) : number :=
  match a, b with
  | Num x, Num y => Num (x - y)%Qc
  | _, _ => NaN
  end.

Definition half (a : number) : number :=
  match a with
  | Num x => Num (x / Q2Qc (inject_Z 2))%Qc
  | NaN => NaN
  end.

Definition is_nan (a : number) : bool :=
  match a with NaN => true | Num _ => false end.

(** ToBoolean on a Number: NaN and zero are falsy. *)
Definition truthy (a : number) : bool :=
  match a with
  | NaN => false
  | Num x => negb (Qc_eq_bool x (Q2Qc 0))
  end.

(** [a || b] where both operands are Numbers. *)
Definition or_else (a b : number) : number :=
  if truthy a then a else b.

(** [a === b] on Numbers: NaN equals nothing. *)
Definition strict_eq (a b : number) : bool :=
  match a, b with
  | Num x, Num y => Qc_eq_bool x y
  | _, _ => false
  end.

End JSNumber.

Export JSNumber.

Declare Scope num_scope.
Delimit Scope num_scope with num.
Infix "+" := JSNumber.add : num_scope.
Infix "-" := JSNumber.sub : num_scope.

(* ------------------------------------------------------------------ *)
(** ** Regular expressions *)

Module Regex.

(** Syntax of the pattern bodies used by the source. *)
Inductive re : Type :=
| Void : re                       (* matches nothing; only from derivatives *)
| Eps : re                        (* the empty pattern *)
| Class (cs : list ascii) : re    (* [abc], and a literal character *)
| Cat (r1 r2 : re) : re           (* r1r2 *)
| Alt (r1 r2 : re) : re           (* r1|r2 *)
| Opt (r : re) : re.              (* r? *)

(** [r{n}] and [r{lo,hi}] are finite, so they unfold to the core syntax. *)
Fixpoint exactly (n : nat) (r : re) : re :=
  match n with
  | O => Eps
  | S k => Cat r (exactly k r)
  end.

Fixpoint upto (n : nat) (r : re) : re :=
  match n with
  | O => Eps
  | S k => Opt (Cat r (upto k r))
  end.

Definition range (lo hi : nat) (r : re) : re :=
  Cat (exactly lo r) (upto (hi - lo) r).

Definition chr (c : ascii) : re := Class [c].

(** A literal such as [lr]. *)
Fixpoint lit (s : string) : re :=
  match s with
  | EmptyString => Eps
  | String c s' => Cat (chr c) (lit s')
  end.

(** Canonicalize of the [i] flag: a code unit is compared through its
    upper-case form.  A code unit of 128 or more never maps into ASCII, so
    against the ASCII classes of the source it can stay as it is; only a-z
    change. *)
Definition upcase (c : ascii) : ascii :=
  let n := nat_of_ascii c in
  if (97 <=? n)%nat && (n <=? 122)%nat then ascii_of_nat (n - 32) else c.

Definition canon (icase : bool) (c : ascii) : ascii :=
  if icase then upcase c else c.

Definition in_class (icase : bool) (c : ascii) (cs : list ascii) : bool :=
  existsb (fun d => Ascii.eqb (canon icase c) (canon icase d)) cs.

Fixpoint nullable (r : re) : bool :=
  match r with
  | Void => false
  | Eps => true
  | Class _ => false
  | Cat r1 r2 => nullable r1 && nullable r2
  | Alt r1 r2 => nullable r1 || nullable r2
  | Opt _ => true
  end.

Fixpoint deriv (icase : bool) (c : ascii) (r : re) : re :=
  match r with
  | Void => Void
  | Eps => Void
  | Class cs => if in_class icase c cs then Eps else Void
  | Cat r1 r2 =>
      Alt (Cat (deriv icase c r1) r2)
          (if nullable r1 then deriv icase c r2 else Void)
  | Alt r1 r2 => Alt (deriv icase c r1) (deriv icase c r2)
  | Opt r1 => deriv icase c r1
  end.

Fixpoint matches (icase : bool) (r : re) (s : string) : bool :=
  match s with
  | EmptyString => nullable r
  | String c s' => matches icase (deriv icase c r) s'
  end.

(** A literal [/^body$/] or [/^body$/i]. *)
Record regex : Type := {
  body : re;
  ignoreCase : bool
}.

(** [RegExp.prototype.test] on an anchored pattern. *)
Definition test (r : regex) (s : string) : bool :=
  matches (ignoreCase r) (body r) s.

(** A pattern that can no longer accept anything. *)
Fixpoint dead (r : re) : bool :=
  match r with
  | Void => true
  | Eps => false
  | Class _ => false
  | Cat r1 r2 => dead r1 || dead r2
  | Alt r1 r2 => dead r1 && dead r2
  | Opt _ => false
  end.

End Regex.

Export Regex.

(* ------------------------------------------------------------------ *)
(** ** Built-ins: ToString and parseInt *)

Module Builtin.

(** The values an option of the plug-in can hold. *)
Inductive value : Type :=
| VNum (n : number) : value
| VStr (s : string) : value
| VBool (b : bool) : value.

(** ToString of a value that is a string or [undefined] (an argument that
    was not passed, a style property that is not set). *)
Definition to_string (v : option string) : string :=
  match v with
  | Some s => s
  | None => "undefined"
  end.

(** StrWhiteSpaceChar among the code units below 256. *)
Definition is_white (c : ascii) : bool :=
  match nat_of_ascii c with
  | 9 | 10 | 11 | 12 | 13 | 32 | 160 => true
  | _ => false
  end.

Fixpoint skip_white (s : string) : string :=
  match s with
  | EmptyString => EmptyString
  | String c s' => if is_white c then skip_white s' else s
  end.

Definition digit_of (c : ascii) : option Z :=
  let n := nat_of_ascii c in
  if (48 <=? n)%nat && (n <=? 57)%nat then Some (Z.of_nat (n - 48)) else None.

(** Value of the longest prefix of decimal digits; [acc] is [None] until a
    digit has been read. *)
Fixpoint digits (acc : option Z) (s : string) : option Z :=
  match s with
  | EmptyString => acc
  | String c s' =>
      match digit_of c with
      | Some d =>
          digits (Some (10 * match acc with Some a => a | None => 0 end + d)%Z) s'
      | None => acc
      end
  end.

(** [parseInt(s, 10)] on a string: leading white space, an optional sign,
    then the longest run of digits; NaN when there is no digit. *)
Definition parseInt_string (s : string) : number :=
  let s1 := skip_white s in
  let '(sign, s2) :=
    match s1 with
    | String "-"%char r => ((-1)%Z, r)
    | String "+"%char r => (1%Z, r)
    | _ => (1%Z, s1)
    end in
  match digits None s2 with
  | None => NaN
  | Some n => ofZ (sign * n)
  end.

(** Leading significant digit of a positive rational: scale by ten into
    [1, 10) and take the integer part.  The fuel bounds the number of
    scalings by the sizes of numerator and denominator; it is enough
    ([leading_digit_range]). *)
Fixpoint shrink (fuel : nat) (a : Q) : Q :=
  match fuel with
  | O => a
  | S f => if Qle_bool (inject_Z 10) a then shrink f (a / inject_Z 10) else a
  end.

Fixpoint grow (fuel : nat) (a : Q) : Q :=
  match fuel with
  | O => a
  | S f => if Qle_bool (inject_Z 1) a then a else grow f (a * inject_Z 10)
  end.

Definition leading_digit (a : Q) : Z :=
  Qfloor (grow (Pos.size_nat (Qden a))
               (shrink (Z.to_nat (Z.log2 (Qnum a))) a)).

(** Integer part, rounding toward zero. *)
Definition Qtrunc (q : Q) : Z := Z.quot (Qnum q) (Zpos (Qden q)).

(** [parseInt(n, 10)] on a Number is [parseInt] of ToString(n).  ToString
    writes a non-zero n in positional notation when 10^-6 <= |n| < 10^21,
    so the digits read are those of the integer part; otherwise it writes
    [d.ddde+x] or [d.ddde-x], and the digits read stop after the leading
    digit d. ToString(NaN) is ["NaN"], which has no digit. *)
Definition parseInt_number (n : number) : number :=
  match n with
  | NaN => NaN
  | Num q =>
      let a := Qabs q in
      if Qeq_bool a (inject_Z 0) then zero
      else if Qle_bool (1 # 1000000) a
              && negb (Qle_bool (inject_Z (10 ^ 21)) a)
      then ofZ (Qtrunc q)
      else ofZ (Z.sgn (Qnum q) * leading_digit a)
  end.

(** [parseInt(v, 10)]. *)
Definition parseInt (v : value) : number :=
  match v with
  | VNum n => parseInt_number n
  | VStr s => parseInt_string s
  | VBool b => parseInt_string (if b then "true" else "false")
  end.

(** [0 !== v]: false only when [v] is the Number zero. *)
Definition zero_strict_neq (v : value) : bool :=
  match v with
  | VNum n => negb (strict_eq zero n)
  | _ => true
  end.

(** ToString of a Number that is a natural number below 10^21: its
    decimal digits. *)
Definition decimal (n : nat) : string :=
  NilEmpty.string_of_uint (Nat.to_uint n).

(** [s.split('')]: the code units of [s], one string each. *)
Fixpoint split (s : string) : list string :=
  match s with
  | EmptyString => []
  | String c s' => String c EmptyString :: split s'
  end.

(** [args[i]] inside a string concatenation: a missing element is
    [undefined] and concatenates as such. *)
Definition at_index (args : list string) (i : nat) : string :=
  to_string (nth_error args i).

End Builtin.

Export Builtin.

(* ------------------------------------------------------------------ *)
(** ** A writer monad for the calls of [test] *)

Module Log.

(** A result together with the (pattern, subject) pairs tested on the way. *)
Definition logged (A : Type) : Type := (A * list (regex * string))%type.

Definition ret {A : Type} (a : A) : logged A := (a, []).

Definition bind {A B : Type} (m : logged A) (f : A -> logged B) : logged B :=
  let '(a, l1) := m in
  let '(b, l2) := f a in
  (b, (l1 ++ l2)%list).

Definition tested (r : regex) (s : string) : logged bool :=
  (test r s, [(r, s)]).

Definition value_of {A : Type} (m : logged A) : A := fst m.

Definition subjects {A : Type} (m : logged A) : list string :=
  map snd (snd m).

End Log.

Export Log.

Notation "x <- m ;; k" := (bind m (fun x => k))
  (at level 61, m at next level, right associativity).

(* ------------------------------------------------------------------ *)
(** ** The plug-in *)

(** What the plug-in reads of a jQuery element: [offset()], [outerWidth()],
    [outerHeight()] and the [margin-left] and [margin-top] styles. *)
Record element : Type := {
  offset_left : number;
  offset_top : number;
  outerWidth : number;
  outerHeight : number;
  margin_left : option string;
  margin_top : option string
}.

(** The merged options object [op]. *)
Record opts : Type := {
  op_x : value;
  op_y : value;
  appendToBody : bool
}.

(** The [options] argument: each property may be absent. *)
Record options : Type := {
  given_x : option value;
  given_y : option value;
  given_appendToBody : option bool
}.

(** [op = { x: 0, y: 0, appendToBody: false }]. *)
Definition default_op : opts :=
  {| op_x := VNum zero; op_y := VNum zero; appendToBody := false |}.

(** [$.extend(op, options)]: a property that is present overrides. *)
Definition extend (op : opts) (o : options) : opts :=
  {| op_x := match given_x o with Some v => v | None => op_x op end;
     op_y := match given_y o with Some v => v | None => op_y op end;
     appendToBody :=
       match given_appendToBody o with
       | Some b => b
       | None => appendToBody op
       end |}.

(** Lines 135-142: the defaults, extended when [options] is defined. *)
Definition merged (o : option options) : opts :=
  match o with
  | Some o' => extend default_op o'
  | None => default_op
  end.

(** The style object [tCss] handed to [t.css]. *)
Record css : Type := {
  position : string;
  left : number;
  top : number
}.

Definition letters (s : string) : list ascii := list_ascii_of_string s.

(** [/^([tbcm]{2}|lr|rl)$/i] *)
Definition rXM : regex :=
  {| body := Alt (exactly 2 (Class (letters "tbcm"))) (Alt (lit "lr") (lit "rl"));
     ignoreCase := true |}.

(** [/^r?[rtbcm]r?$/i] *)
Definition rXR : regex :=
  {| body := Cat (Opt (chr "r")) (Cat (Class (letters "rtbcm")) (Opt (chr "r")));
     ignoreCase := true |}.

(** [/^([lrcm]{2}|tb|bt)$/i] *)
Definition rYM : regex :=
  {| body := Alt (exactly 2 (Class (letters "lrcm"))) (Alt (lit "tb") (lit "bt"));
     ignoreCase := true |}.

(** [/^b?[lrbcm]b?$/i] *)
Definition rYB : regex :=
  {| body := Cat (Opt (chr "b")) (Cat (Class (letters "lrbcm")) (Opt (chr "b")));
     ignoreCase := true |}.

(** [/^[tblrcm]{1,4}$/], the pattern of the validity check. *)
Definition rPos : regex :=
  {| body := range 1 4 (Class (letters "tblrcm")); ignoreCase := false |}.

(** Lines 143-164: reset an invalid [pos], then flesh out the 4-point
    position string into [pT] (element to move) and [pE] (target).  A value
    that passes the check is a string here, so [pos] and its string
    conversion coincide in the second branch. *)
Definition resolve (pos : option string) : string * string :=
  let pos := if negb (test rPos (to_string pos)) then "c" else to_string pos in
  let args := split pos in
  match List.length args with
  | 1 => ("" ++ pos ++ pos, "" ++ pos ++ pos)
  | 2 => (pos, pos)
  | 3 => ("" ++ at_index args 0 ++ at_index args 1,
          "" ++ at_index args 2 ++ at_index args 2)
  | 4 => ("" ++ at_index args 0 ++ at_index args 1,
          "" ++ at_index args 2 ++ at_index args 3)
  | _ => ("", "")
  end.

(** [parseInt(t.css(name), 10) || 0]. *)
Definition margin_px (m : option string) : number :=
  or_else (parseInt_string (to_string m)) zero.

Local Open Scope num_scope.

(** Lines 167-213: the callback of [this.each], for one element [t].  The
    result is the style object given to [t.css]; the [appendToBody] step
    that follows moves the node in the document and leaves the style as it
    is, so it is not part of the result. *)
Definition each_callback (eX eY eW eH : number) (pT pE : string) (op : opts)
    (t : element) : logged css :=
  let tX := eX in
  let tY := eY in
  let tW := outerWidth t in
  let tH := outerHeight t in
  (* Test for X-points of this *)
  tX <- (m <- tested rXM pT ;;
         if m then ret (tX - half tW)
         else r <- tested rXR pT ;;
              if r then ret (tX - tW) else ret tX) ;;
  (* Test for X-points of elem *)
  tX <- (m <- tested rXM pE ;;
         if m then ret (tX + half eW)
         else r <- tested rXR pE ;;
              if r then ret (tX + eW) else ret tX) ;;
  (* Test for Y-points of this *)
  tY <- (m <- tested rYM pT ;;
         if m then ret (tY - half tH)
         else b <- tested rYB pT ;;
              if b then ret (tY - tH) else ret tY) ;;
  (* Test for Y-points of elem *)
  tY <- (m <- tested rYM pE ;;
         if m then ret (tY + half eH)
         else b <- tested rYB pE ;;
              if b then ret (tY + eH) else ret tY) ;;
  (* Account for margins pushing out the position *)
  let tX := tX - margin_px (margin_left t) in
  let tY := tY - margin_px (margin_top t) in
  (* Add any offset specified in the options *)
  let tX := if zero_strict_neq (op_x op) then tX + parseInt (op_x op) else tX in
  let tY := if zero_strict_neq (op_y op) then tY + parseInt (op_y op) else tY in
  ret {| position := "absolute"; left := tX; top := tY |}.

(** [alignWith(elem, pos, options)] on the jQuery set [this]: the style
    applied to each element of the set, in order, with the tests made. *)
Definition alignWith (this : list element) (elem : element)
    (pos : option string) (o : option options) : list (logged css) :=
  let eX := offset_left elem in
  let eY := offset_top elem in
  let eW := outerWidth elem in
  let eH := outerHeight elem in
  let op := merged o in
  let '(pT, pE) := resolve pos in
  map (each_callback eX eY eW eH pT pE op) this.

(** The styles alone. *)
Definition aligned (this : list element) (elem : element)
    (pos : option string) (o : option options) : list css :=
  map value_of (alignWith this elem pos o).

Local Close Scope num_scope.

(* ------------------------------------------------------------------ *)
(** ** Vocabulary for the statements *)

(** [member c "abc"]: the character is one of those listed. *)
Definition member (c : ascii) (set : string) : bool :=
  existsb (Ascii.eqb c) (letters set).

(** The six lower-case letters of a position string. *)
Definition is_letter (c : ascii) : bool := member c "tblrcm".

(** The two-character code made of [a] then [b]. *)
Definition code2 (a b : ascii) : string := String a (String b EmptyString).

(** Where along one axis a point sits. *)
Inductive axis_class : Type :=
| AStart : axis_class
| ACenter : axis_class
| AEnd : axis_class.

(** The outcome of one [if (rM.test(p)) ... else if (rE.test(p)) ...] chain
    of the callback. *)
Definition classify (rM rE : regex) (code : string) : axis_class :=
  if test rM code then ACenter
  else if test rE code then AEnd
  else AStart.

(** The patterns themselves: the centre class applies when the first
    pattern matches, the end class when the second does, the start class
    when neither does. *)
Definition applies (rM rE : regex) (c : axis_class) (code : string) : bool :=
  match c with
  | ACenter => test rM code
  | AEnd => test rE code
  | AStart => negb (test rM code) && negb (test rE code)
  end.

(** The length moved for a class: half the extent, the extent, or nothing. *)
Definition shift (c : axis_class) (extent : number) : number :=
  match c with
  | ACenter => half extent
  | AEnd => extent
  | AStart => zero
  end.

(** What lines 204-209 add for an option value: nothing (zero) for the
    Number zero, [parseInt] of it otherwise. *)
Definition offset_px (v : value) : number :=
  if zero_strict_neq v then parseInt v else zero.

(** A string that does not go on with a digit. *)
Definition stops (rest : string) : Prop :=
  match rest with
  | EmptyString => True
  | String c _ => digit_of c = None
  end.

(** Ten to the [k], as a fraction. *)
Definition pow10 (k : nat) : Q := inject_Z (10 ^ Z.of_nat k).

(** Magnitudes that ToString writes in positional notation. *)
Definition positional (q : Qc) : bool :=
  Qle_bool (1 # 1000000) (Qabs q)
  && negb (Qle_bool (inject_Z (10 ^ 21)) (Qabs q)).

Module Spec.

(** Horizontal classes as the specification words them: centred when both
    characters are among t, b, c, m, or the code is one l and one r; end
    (right) when an r is present and the code is not centred; start
    otherwise. *)
Definition x_centered (a b : ascii) : bool :=
  (member a "tbcm" && member b "tbcm")
  || (Ascii.eqb a "l" && Ascii.eqb b "r")
  || (Ascii.eqb a "r" && Ascii.eqb b "l").

Definition x_class (a b : ascii) : axis_class :=
  if x_centered a b then ACenter
  else if Ascii.eqb a "r" || Ascii.eqb b "r" then AEnd
  else AStart.

(** Vertical classes: the same with t, b in place of l, r. *)
Definition y_centered (a b : ascii) : bool :=
  (member a "lrcm" && member b "lrcm")
  || (Ascii.eqb a "t" && Ascii.eqb b "b")
  || (Ascii.eqb a "b" && Ascii.eqb b "t").

Definition y_class (a b : ascii) : axis_class :=
  if y_centered a b then ACenter
  else if Ascii.eqb a "b" || Ascii.eqb b "b" then AEnd
  else AStart.

(** A coordinate as the specification computes it: the target's corner,
    minus the mover's shift, plus the target's shift, minus the margin,
    plus the offset. *)
Definition coordinate (corner mover_shift target_shift margin offset : number)
  : number :=
  (((corner - mover_shift) + target_shift) - margin + offset)%num.

(** Acceptance as the specification words it: trimmed of surrounding white
    space, one to four characters, each one of the six letters in either
    case. *)
Fixpoint drop_white (l : list ascii) : list ascii :=
  match l with
  | [] => []
  | c :: l' => if is_white c then drop_white l' else l
  end.

Definition trim (s : string) : string :=
  string_of_list_ascii (rev (drop_white (rev (drop_white (letters s))))).

Definition accepts (s : string) : bool :=
  let t := trim s in
  (1 <=? String.length t)%nat && (String.length t <=? 4)%nat
  && forallb (fun c => in_class true c (letters "tblrcm")) (letters t).

End Spec.

(** Sample data: an element of 40 x 20 to move, with margins of zero, and
    a target of 80 x 60 whose corner is at (100, 200). *)
Definition mover_40x20 : element :=
  {| offset_left := ofZ 0; offset_top := ofZ 0;
     outerWidth := ofZ 40; outerHeight := ofZ 20;
     margin_left := Some "0px"; margin_top := Some "0px" |}.

Definition target_80x60 : element :=
  {| offset_left := ofZ 100; offset_top := ofZ 200;
     outerWidth := ofZ 80; outerHeight := ofZ 60;
     margin_left := Some "0px"; margin_top := Some "0px" |}.

(** Options that set only [x]. *)
Definition only_x (v : value) : options :=
  {| given_x := Some v; given_y := None; given_appendToBody := None |}.

(** One half, five ten-millionths (5e-7), and minus 5.7. *)
Definition one_half : Qc := Q2Qc (1 # 2).
Definition five_e_minus_7 : Qc := Q2Qc (5 # 10000000).
Definition minus_5_7 : Qc := Q2Qc (-57 # 10).

(* ------------------------------------------------------------------ *)
(** ** Vocabulary for further properties *)

(** The style computed for one element. *)
Definition style (eX eY eW eH : number) (pT pE : string) (op : opts)
    (t : element) : css :=
  value_of (each_callback eX eY eW eH pT pE op t).

(** The element [t] with other margin styles. *)
Definition with_margins (t : element) (ml mt : option string) : element :=
  {| offset_left := offset_left t; offset_top := offset_top t;
     outerWidth := outerWidth t; outerHeight := outerHeight t;
     margin_left := ml; margin_top := mt |}.

(** The options object [{x: vx, y: vy}]. *)
Definition both_offsets (vx vy : value) : options :=
  {| given_x := Some vx; given_y := Some vy; given_appendToBody := None |}.

(** A style moved by [dx] and [dy]. *)
Definition moved_by (dx dy : number) (c : css) : css :=
  {| position := position c;
     left := (left c + dx)%num; top := (top c + dy)%num |}.

(** ToString of an integer Number below 10^21 in magnitude: a minus sign
    when it is negative, then the digits. *)
Definition numeral (z : Z) : string :=
  match z with
  | Zneg _ => String "-" (decimal (Z.abs_nat z))
  | _ => decimal (Z.abs_nat z)
  end.

(** A string, character by character. *)
Fixpoint smap (f : ascii -> ascii) (s : string) : string :=
  match s with
  | EmptyString => EmptyString
  | String c s' => String (f c) (smap f s')
  end.

(** [m] written as [c]. *)
Definition m_to_c (c : ascii) : ascii :=
  if Ascii.eqb c "m" then "c"%char else c.

Module Doc.

(** The letters as the header comment of the source reads them (lines
    20-25): l, r and c or m name a horizontal place, t, b and c or m a
    vertical one. *)
Definition horizontal (c : ascii) : option axis_class :=
  if Ascii.eqb c "l" then Some AStart
  else if Ascii.eqb c "r" then Some AEnd
  else if Ascii.eqb c "c" || Ascii.eqb c "m" then Some ACenter
  else None.

Definition vertical (c : ascii) : option axis_class :=
  if Ascii.eqb c "t" then Some AStart
  else if Ascii.eqb c "b" then Some AEnd
  else if Ascii.eqb c "c" || Ascii.eqb c "m" then Some ACenter
  else None.

(** Length 1 (lines 32-34): the centre point for c or m, the mid-point of
    the named side otherwise. *)
Definition side (a : ascii) : axis_class * axis_class :=
  (match horizontal a with Some c => c | None => ACenter end,
   match vertical a with Some c => c | None => ACenter end).

(** A letter for each place. *)
Definition h_letter (c : axis_class) : ascii :=
  match c with AStart => "l" | ACenter => "c" | AEnd => "r" end%char.

Definition v_letter (c : axis_class) : ascii :=
  match c with AStart => "t" | ACenter => "c" | AEnd => "b" end%char.

End Doc.

(* ------------------------------------------------------------------ *)
(** ** The callback over any arithmetic *)

Section AnyArithmetic.

(** The numbers, their [+], [-] and [/ 2], and the number that stands for
    what [parseInt] returned. *)
Variable N : Type.
Variables plus minus : N -> N -> N.
Variable halve : N -> N.
Variable inj : number -> N.

(** Lines 167-213 once more, with the arithmetic left open: the value of
    [tX] and [tY] handed to [t.css].  [tW], [tH], [ml] and [mt] are the
    outer width and height and the two margin styles of the element. *)
Definition callback_in (eX eY eW eH : N) (pT pE : string) (op : opts)
    (tW tH : N) (ml mt : option string) : N * N :=
  let tX := eX in
  let tY := eY in
  let tX := if test rXM pT then minus tX (halve tW)
            else if test rXR pT then minus tX tW else tX in
  let tX := if test rXM pE then plus tX (halve eW)
            else if test rXR pE then plus tX eW else tX in
  let tY := if test rYM pT then minus tY (halve tH)
            else if test rYB pT then minus tY tH else tY in
  let tY := if test rYM pE then plus tY (halve eH)
            else if test rYB pE then plus tY eH else tY in
  let tX := minus tX (inj (margin_px ml)) in
  let tY := minus tY (inj (margin_px mt)) in
  let tX := if zero_strict_neq (op_x op)
            then plus tX (inj (parseInt (op_x op))) else tX in
  let tY := if zero_strict_neq (op_y op)
            then plus tY (inj (parseInt (op_y op))) else tY in
  (tX, tY).

End AnyArithmetic.

Module Binary64.

(** Binary64 numbers: the primitive floats, with their IEEE 754 [+], [-]
    and [/]. *)
Definition float : Set := PrimFloat.float.

(** A positive integer as a float, bit by bit; exact below 2^53. *)
Fixpoint of_positive (p : positive) : float :=
  match p with
  | xH => PrimFloat.one
  | xO p' => PrimFloat.mul PrimFloat.two (of_positive p')
  | xI p' =>
      PrimFloat.add (PrimFloat.mul PrimFloat.two (of_positive p'))
                    PrimFloat.one
  end.

Definition of_Z (z : Z) : float :=
  match z with
  | Z0 => PrimFloat.zero
  | Zpos p => of_positive p
  | Zneg p => PrimFloat.opp (of_positive p)
  end.

(** The float nearest to a fraction whose numerator and denominator are
    below 2^53: the quotient of two exact floats, correctly rounded. *)
Definition of_Q (q : Q) : float :=
  PrimFloat.div (of_Z (Qnum q)) (of_positive (Qden q)).

Definition of_number (n : number) : float :=
  match n with
  | NaN => PrimFloat.nan
  | Num q => of_Q q
  end.

(** [x / 2]. *)
Definition half (x : float) : float := PrimFloat.div x PrimFloat.two.

(** The callback on binary64 numbers. *)
Definition callback : float -> float -> float -> float -> string -> string ->
                      opts -> float -> float -> option string ->
                      option string -> float * float :=
  callback_in float PrimFloat.add PrimFloat.sub half of_number.

(** [x + w / 2 - m / 2], left to right. *)
Definition centre_formula (x w m : float) : float :=
  PrimFloat.sub (PrimFloat.add x (half w)) (half m).

(** Sample data: a target of 80.1 x 60 at (100, 200) and an element of
    40.1 x 20, as the nearest floats. *)
Definition x100 : float := of_Z 100.
Definition y200 : float := of_Z 200.
Definition w80_1 : float := of_Q (801 # 10).
Definition h60 : float := of_Z 60.
Definition w40_1 : float := of_Q (401 # 10).
Definition h20 : float := of_Z 20.

(** [left] for that element and target, position ["c"], margins and
    offsets of zero. *)
Definition centred_left : float :=
  fst (callback x100 y200 w80_1 h60
         (fst (resolve (Some "c"))) (snd (resolve (Some "c")))
         default_op w40_1 h20 (Some "0px") (Some "0px")).

End Binary64.

(* ------------------------------------------------------------------ *)
(** ** Arithmetic of Numbers *)

Section NumberFacts.

Local Open Scope num_scope.

Lemma zero_is_0 : zero = Num 0%Qc.
Proof. reflexivity. Qed.

Lemma sub_zero_r (a : number) : a - zero = a.
Proof.
  destruct a as [|x]; [reflexivity|].
  rewrite zero_is_0. simpl. f_equal. ring.
Qed.

Lemma add_zero_r (a : number) : a + zero = a.
Proof.
  destruct a as [|x]; [reflexivity|].
  rewrite zero_is_0. simpl. f_equal. ring.
Qed.

Lemma truthy_not_nan (a : number) : truthy a = true -> is_nan a = false.
Proof. destruct a; simpl; [discriminate | reflexivity]. Qed.

Lemma or_else_zero_not_nan (a : number) : is_nan (or_else a zero) = false.
Proof.
  unfold or_else. destruct (truthy a) eqn:E.
  - now apply truthy_not_nan.
  - reflexivity.
Qed.

Lemma or_else_nan (b : number) : or_else NaN b = b.
Proof. reflexivity. Qed.

Lemma add_not_nan (a b : number) :
  is_nan a = false -> is_nan b = false -> is_nan (a + b) = false.
Proof. destruct a, b; simpl; congruence. Qed.

Lemma sub_not_nan (a b : number) :
  is_nan a = false -> is_nan b = false -> is_nan (a - b) = false.
Proof. destruct a, b; simpl; congruence. Qed.

Lemma half_not_nan (a : number) : is_nan a = false -> is_nan (half a) = false.
Proof. destruct a; simpl; congruence. Qed.

Lemma shift_not_nan (c : axis_class) (w : number) :
  is_nan w = false -> is_nan (shift c w) = false.
Proof. destruct c; simpl; auto using half_not_nan. Qed.

End NumberFacts.

(* ------------------------------------------------------------------ *)
(** ** The patterns on two-letter codes *)

Lemma member_cases (c : ascii) :
  is_letter c = true ->
  c = "t"%char \/ c = "b"%char \/ c = "l"%char \/ c = "r"%char
  \/ c = "c"%char \/ c = "m"%char.
Proof.
  unfold is_letter, member, letters. cbn [list_ascii_of_string existsb].
  intros H.
  repeat (apply orb_true_iff in H; destruct H as [H|H];
          [apply Ascii.eqb_eq in H; tauto|]).
  discriminate.
Qed.

(** Case analysis over the 36 codes. *)
Ltac each_code Ha Hb :=
  apply member_cases in Ha; apply member_cases in Hb;
  repeat (destruct Ha as [Ha|Ha]); repeat (destruct Hb as [Hb|Hb]);
  subst.

Lemma rXM_code (a b : ascii) :
  is_letter a = true -> is_letter b = true ->
  test rXM (code2 a b) = Spec.x_centered a b.
Proof. intros Ha Hb. each_code Ha Hb; reflexivity. Qed.

Lemma rXR_code (a b : ascii) :
  is_letter a = true -> is_letter b = true ->
  test rXR (code2 a b) =
  (Ascii.eqb a "r" || Ascii.eqb b "r") && negb (Spec.x_centered a b).
Proof. intros Ha Hb. each_code Ha Hb; reflexivity. Qed.

Lemma rYM_code (a b : ascii) :
  is_letter a = true -> is_letter b = true ->
  test rYM (code2 a b) = Spec.y_centered a b.
Proof. intros Ha Hb. each_code Ha Hb; reflexivity. Qed.

Lemma rYB_code (a b : ascii) :
  is_letter a = true -> is_letter b = true ->
  test rYB (code2 a b) =
  (Ascii.eqb a "b" || Ascii.eqb b "b") && negb (Spec.y_centered a b).
Proof. intros Ha Hb. each_code Ha Hb; reflexivity. Qed.

Lemma classify_x_code (a b : ascii) :
  is_letter a = true -> is_letter b = true ->
  classify rXM rXR (code2 a b) = Spec.x_class a b.
Proof.
  intros Ha Hb. unfold classify, Spec.x_class.
  rewrite (rXM_code a b Ha Hb), (rXR_code a b Ha Hb).
  destruct (Spec.x_centered a b); [reflexivity|].
  now rewrite andb_true_r.
Qed.

Lemma classify_y_code (a b : ascii) :
  is_letter a = true -> is_letter b = true ->
  classify rYM rYB (code2 a b) = Spec.y_class a b.
Proof.
  intros Ha Hb. unfold classify, Spec.y_class.
  rewrite (rYM_code a b Ha Hb), (rYB_code a b Ha Hb).
  destruct (Spec.y_centered a b); [reflexivity|].
  now rewrite andb_true_r.
Qed.

(* ------------------------------------------------------------------ *)
(** ** The callback, in closed form *)

(** The style computed for one element, for any two subjects [pT], [pE]:
    each coordinate starts at the target's corner, loses the mover's shift,
    gains the target's, loses the margin and gains the offset. *)
Lemma each_callback_value (eX eY eW eH : number) (pT pE : string) (op : opts)
    (t : element) :
  value_of (each_callback eX eY eW eH pT pE op t) =
  {| position := "absolute";
     left := Spec.coordinate eX
               (shift (classify rXM rXR pT) (outerWidth t))
               (shift (classify rXM rXR pE) eW)
               (margin_px (margin_left t)) (offset_px (op_x op));
     top := Spec.coordinate eY
               (shift (classify rYM rYB pT) (outerHeight t))
               (shift (classify rYM rYB pE) eH)
               (margin_px (margin_top t)) (offset_px (op_y op)) |}.
Proof.
  unfold each_callback, classify, tested, bind, ret, value_of,
    Spec.coordinate, offset_px.
  destruct (test rXM pT), (test rXR pT), (test rXM pE), (test rXR pE),
    (test rYM pT), (test rYB pT), (test rYM pE), (test rYB pE),
    (zero_strict_neq (op_x op)), (zero_strict_neq (op_y op));
    cbn [fst snd shift];
    rewrite ?sub_zero_r, ?add_zero_r; reflexivity.
Qed.

(** Every subject handed to [test] by the callback is [pT] or [pE]. *)
Lemma each_callback_subjects (eX eY eW eH : number) (pT pE : string)
    (op : opts) (t : element) :
  Forall (fun s => s = pT \/ s = pE)
         (subjects (each_callback eX eY eW eH pT pE op t)).
Proof.
  unfold each_callback, tested, bind, ret, subjects.
  destruct (test rXM pT), (test rXR pT), (test rXM pE), (test rXR pE),
    (test rYM pT), (test rYB pT), (test rYM pE), (test rYB pE);
    cbn [fst snd map app]; repeat (apply Forall_cons; [auto|]);
    apply Forall_nil.
Qed.

(* ------------------------------------------------------------------ *)
(** ** The validity check and the expansion *)

Lemma dead_not_nullable (r : re) : dead r = true -> nullable r = false.
Proof.
  induction r; simpl; intros H; try discriminate; auto.
  - apply orb_true_iff in H.
    destruct H as [H|H]; [rewrite (IHr1 H) | rewrite (IHr2 H)];
      auto using andb_false_r.
  - apply andb_true_iff in H. destruct H as [H1 H2]. now rewrite IHr1, IHr2.
Qed.

Lemma dead_deriv (i : bool) (c : ascii) (r : re) :
  dead r = true -> dead (deriv i c r) = true.
Proof.
  induction r; simpl; intros H; try discriminate; auto.
  - apply orb_true_iff in H. destruct H as [H|H].
    + rewrite (IHr1 H), (dead_not_nullable _ H). reflexivity.
    + rewrite H, orb_true_r. destruct (nullable r1); auto.
  - apply andb_true_iff in H. destruct H as [H1 H2]. now rewrite IHr1, IHr2.
Qed.

Lemma dead_matches (i : bool) (s : string) :
  forall r, dead r = true -> matches i r s = false.
Proof.
  induction s as [|c s IH]; simpl; intros r H.
  - now apply dead_not_nullable.
  - apply IH. now apply dead_deriv.
Qed.

Ltac step_class :=
  match goal with
  | H : in_class ?i ?c ?l = _ |- context [in_class ?i ?c ?l] => rewrite H
  | |- context [in_class ?i ?c ?l] => destruct (in_class i c l) eqn:?
  end;
  cbn [matches deriv nullable andb orb dead].

(** The check accepts one to four of the six lower-case letters, and
    nothing else. *)
Lemma rPos_spec (s : string) :
  test rPos s =
  (1 <=? String.length s)%nat && (String.length s <=? 4)%nat
  && forallb is_letter (letters s).
Proof.
  unfold test, rPos, is_letter, member, range, letters.
  change (fun c : ascii => existsb (Ascii.eqb c) (list_ascii_of_string "tblrcm"))
    with (fun c : ascii => in_class false c (list_ascii_of_string "tblrcm")).
  cbn [body ignoreCase exactly upto Nat.sub list_ascii_of_string].
  destruct s as [|c1 [|c2 [|c3 [|c4 [|c5 s]]]]];
    cbn [matches deriv nullable String.length list_ascii_of_string forallb
         Nat.leb andb orb];
    repeat step_class; try reflexivity.
  all: apply dead_matches; reflexivity.
Qed.

Lemma resolve_invalid (pos : option string) :
  test rPos (to_string pos) = false -> resolve pos = ("cc", "cc").
Proof. intros H. unfold resolve. rewrite H. reflexivity. Qed.

Lemma resolve_valid (s : string) :
  test rPos s = true ->
  resolve (Some s) =
  match split s with
  | [_] => (s ++ s, s ++ s)
  | [_; _] => (s, s)
  | [a; b; c] => (a ++ b, c ++ c)
  | [a; b; c; d] => (a ++ b, c ++ d)
  | _ => ("", "")
  end.
Proof.
  intros H. unfold resolve. cbn [to_string]. rewrite H. cbn [negb].
  destruct s as [|c1 [|c2 [|c3 [|c4 [|c5 s]]]]]; reflexivity.
Qed.

(** Whatever [pos] is, [pT] and [pE] are two-letter codes. *)
Lemma resolve_codes (pos : option string) :
  exists a b c d,
    is_letter a = true /\ is_letter b = true /\
    is_letter c = true /\ is_letter d = true /\
    resolve pos = (code2 a b, code2 c d).
Proof.
  destruct (test rPos (to_string pos)) eqn:H.
  - destruct pos as [s|]; [|discriminate H]. cbn [to_string] in H.
    rewrite (resolve_valid s H). rewrite rPos_spec in H.
    destruct s as [|c1 [|c2 [|c3 [|c4 [|c5 s]]]]];
      cbn [String.length letters list_ascii_of_string forallb Nat.leb andb]
        in H; try discriminate H;
      repeat match type of H with
             | _ && _ = true => apply andb_true_iff in H; destruct H as [? H]
             end.
    + exists c1, c1, c1, c1. auto.
    + exists c1, c2, c1, c2. auto.
    + exists c1, c2, c3, c3. auto.
    + exists c1, c2, c3, c4. auto.
  - rewrite (resolve_invalid pos H).
    exists "c"%char, "c"%char, "c"%char, "c"%char. auto.
Qed.

(* ------------------------------------------------------------------ *)
(** ** The position string *)

(** C3: a validated position string [s] is expanded by its length: one
    character gives [pT = pE = s + s]; two give [pT = pE = s]; three give
    the first two characters for [pT] and the third one doubled for [pE];
    four give the first two for [pT] and the last two for [pE]. *)
Theorem C3_expansion (s : string) :
  test rPos s = true ->
  (String.length s = 1%nat -> resolve (Some s) = (s ++ s, s ++ s)) /\
  (String.length s = 2%nat -> resolve (Some s) = (s, s)) /\
  (String.length s = 3%nat ->
   resolve (Some s) =
   (substring 0 2 s, substring 2 1 s ++ substring 2 1 s)) /\
  (String.length s = 4%nat ->
   resolve (Some s) = (substring 0 2 s, substring 2 2 s)).
Proof.
  intros H. rewrite (resolve_valid s H).
  destruct s as [|c1 [|c2 [|c3 [|c4 [|c5 s]]]]];
    cbn [String.length]; repeat split; intros E; try discriminate E;
    reflexivity.
Qed.

Lemma C3_expansion_witness :
  test rPos "tlr" = true /\ resolve (Some "tlr") = ("tl", "rr").
Proof.
  split; [reflexivity|].
  exact (proj1 (proj2 (proj2 (C3_expansion "tlr" eq_refl))) eq_refl).
Defined.

(** C4, amended: a position string is accepted exactly when it consists of
    one to four characters, each one of the lower-case letters t, b, l, r,
    c, m; there is no trimming and no case folding.  Every other string is
    replaced by ["c"], so it resolves as ["c"] does, to the codes ["cc"] and
    ["cc"], and every element of the set still receives a style. *)
Theorem C4_validity (s : string) :
  test rPos s =
    ((1 <=? String.length s)%nat && (String.length s <=? 4)%nat
     && forallb is_letter (letters s)) /\
  (test rPos s = false -> resolve (Some s) = resolve (Some "c")) /\
  resolve (Some "c") = ("cc", "cc") /\
  (forall this elem o,
      List.length (aligned this elem (Some s) o) = List.length this).
Proof.
  split; [apply rPos_spec|]. split; [|split].
  - intros H. now rewrite (resolve_invalid (Some s) H).
  - reflexivity.
  - intros this elem o. unfold aligned, alignWith.
    destruct (resolve (Some s)). now rewrite !length_map.
Qed.

(** C4 as stated fails: ["TL"] and [" tl "] are acceptable after trimming
    and case folding, but the check rejects both and ["c"] is used. *)
Lemma C4_counterexample :
  Spec.accepts "TL" = true /\ test rPos "TL" = false /\
  resolve (Some "TL") = ("cc", "cc") /\
  Spec.accepts " tl " = true /\ test rPos " tl " = false /\
  resolve (Some " tl ") = ("cc", "cc").
Proof. repeat split; reflexivity. Qed.

(** C10: whatever the position argument, [pT] and [pE] have exactly two
    characters, each a lower-case letter among t, b, l, r, c, m; and every
    string tested against a pattern while the elements are moved is [pT] or
    [pE]. *)
Theorem C10_codes (pos : option string) :
  String.length (fst (resolve pos)) = 2%nat /\
  String.length (snd (resolve pos)) = 2%nat /\
  forallb is_letter (letters (fst (resolve pos))) = true /\
  forallb is_letter (letters (snd (resolve pos))) = true /\
  (forall this elem o,
      Forall (fun m => Forall (fun s => s = fst (resolve pos)
                                        \/ s = snd (resolve pos))
                              (subjects m))
             (alignWith this elem pos o)).
Proof.
  destruct (resolve_codes pos) as (a & b & c & d & Ha & Hb & Hc & Hd & E).
  rewrite E. cbn [fst snd code2 String.length letters list_ascii_of_string forallb].
  rewrite Ha, Hb, Hc, Hd. repeat split.
  intros this elem o. unfold alignWith. rewrite E.
  apply Forall_map, Forall_forall. intros t _.
  apply each_callback_subjects.
Qed.

(* ------------------------------------------------------------------ *)
(** ** Axis classes *)

(** C2: for a code of two letters among t, b, l, r, c, m, the horizontal
    centre pattern matches exactly when both letters are among t, b, c, m
    or the code is one l and one r; the right class is taken exactly when
    the code has an r and is not centred; otherwise the code is left
    (start) classed.  Vertically the same holds with t and b in place of l
    and r. *)
Theorem C2_axis_classes (a b : ascii) :
  is_letter a = true -> is_letter b = true ->
  test rXM (code2 a b) = Spec.x_centered a b /\
  classify rXM rXR (code2 a b) = Spec.x_class a b /\
  test rYM (code2 a b) = Spec.y_centered a b /\
  classify rYM rYB (code2 a b) = Spec.y_class a b.
Proof.
  intros Ha Hb.
  auto using rXM_code, rYM_code, classify_x_code, classify_y_code.
Qed.

Lemma C2_axis_classes_witness :
  is_letter "r" = true /\ is_letter "b" = true /\
  classify rXM rXR "rb" = AEnd /\ classify rYM rYB "rb" = AEnd.
Proof.
  split; [reflexivity|]. split; [reflexivity|].
  destruct (C2_axis_classes "r" "b" eq_refl eq_refl) as (_ & Hx & _ & Hy).
  split; [exact Hx | exact Hy].
Defined.

(** C9: for a code of two letters among t, b, l, r, c, m, exactly one
    horizontal and exactly one vertical class applies; the centre pattern
    and the end pattern of an axis never both match; and the code with its
    two letters swapped has the same class on both axes. *)
Theorem C9_one_class (a b : ascii) :
  is_letter a = true -> is_letter b = true ->
  (exists! c, applies rXM rXR c (code2 a b) = true) /\
  (exists! c, applies rYM rYB c (code2 a b) = true) /\
  test rXM (code2 a b) && test rXR (code2 a b) = false /\
  test rYM (code2 a b) && test rYB (code2 a b) = false /\
  classify rXM rXR (code2 b a) = classify rXM rXR (code2 a b) /\
  classify rYM rYB (code2 b a) = classify rYM rYB (code2 a b).
Proof.
  intros Ha Hb.
  assert (Dx : test rXM (code2 a b) && test rXR (code2 a b) = false).
  { rewrite (rXM_code a b Ha Hb), (rXR_code a b Ha Hb).
    destruct (Spec.x_centered a b); [now rewrite andb_false_r | reflexivity]. }
  assert (Dy : test rYM (code2 a b) && test rYB (code2 a b) = false).
  { rewrite (rYM_code a b Ha Hb), (rYB_code a b Ha Hb).
    destruct (Spec.y_centered a b); [now rewrite andb_false_r | reflexivity]. }
  split; [|split; [|split; [exact Dx|split; [exact Dy|]]]].
  - exists (classify rXM rXR (code2 a b)). unfold classify.
    destruct (test rXM (code2 a b)) eqn:M, (test rXR (code2 a b)) eqn:E;
      try discriminate Dx;
      (split; [cbn [applies]; rewrite ?M, ?E; reflexivity|]);
      intros [] H; cbn [applies] in H; rewrite ?M, ?E in H;
      try discriminate H; reflexivity.
  - exists (classify rYM rYB (code2 a b)). unfold classify.
    destruct (test rYM (code2 a b)) eqn:M, (test rYB (code2 a b)) eqn:E;
      try discriminate Dy;
      (split; [cbn [applies]; rewrite ?M, ?E; reflexivity|]);
      intros [] H; cbn [applies] in H; rewrite ?M, ?E in H;
      try discriminate H; reflexivity.
  - split; each_code Ha Hb; reflexivity.
Qed.

Lemma C9_one_class_witness :
  is_letter "t" = true /\ is_letter "l" = true /\
  classify rXM rXR "lt" = classify rXM rXR "tl" /\
  classify rYM rYB "lt" = classify rYM rYB "tl".
Proof.
  split; [reflexivity|]. split; [reflexivity|].
  destruct (C9_one_class "t" "l" eq_refl eq_refl) as (_ & _ & _ & _ & Hx & Hy).
  split; [exact Hx | exact Hy].
Defined.

(* ------------------------------------------------------------------ *)
(** ** The leading digit *)

Lemma pow10_S k : (10 ^ Z.of_nat (S k) = 10 * 10 ^ Z.of_nat k)%Z.
Proof. rewrite Nat2Z.inj_succ, Z.pow_succ_r by lia. reflexivity. Qed.

Lemma Qle_bool_false a b : Qle_bool a b = false -> (b < a)%Q.
Proof.
  intros H. apply Qnot_le_lt. intros L. apply Qle_bool_iff in L. congruence.
Qed.

Lemma div_ten (n : Z) (d : positive) :
  ((n # d) / inject_Z 10 = (n * 1 # d * 10))%Q.
Proof. reflexivity. Qed.

Lemma mul_ten (n : Z) (d : positive) :
  ((n # d) * inject_Z 10 = (n * 10 # d * 1))%Q.
Proof. reflexivity. Qed.

(** Order on fractions, as order on integers. *)
Ltac to_Z :=
  unfold Qlt, Qle, inject_Z in *; cbn [Qnum Qden] in *;
  rewrite ?Pos2Z.inj_mul in *.

Lemma shrink_lt (fuel : nat) :
  forall a, (a < pow10 (S fuel))%Q -> (shrink fuel a < inject_Z 10)%Q.
Proof.
  induction fuel as [|f IH]; intros a H; cbn [shrink].
  - exact H.
  - destruct (Qle_bool (inject_Z 10) a) eqn:E.
    + apply IH. unfold pow10 in *. rewrite (pow10_S (S f)) in H.
      set (p := (10 ^ Z.of_nat (S f))%Z) in *. clearbody p. clear IH E.
      destruct a as [n d]. rewrite div_ten. to_Z. lia.
    + now apply Qle_bool_false.
Qed.

Lemma shrink_ge (fuel : nat) :
  forall a, (inject_Z 1 <= a)%Q -> (inject_Z 1 <= shrink fuel a)%Q.
Proof.
  induction fuel as [|f IH]; intros a H; cbn [shrink]; [exact H|].
  destruct (Qle_bool (inject_Z 10) a) eqn:E; [|exact H].
  apply IH. apply Qle_bool_iff in E. clear IH H.
  destruct a as [n d]. rewrite div_ten. to_Z. lia.
Qed.

Lemma shrink_small (fuel : nat) (a : Q) :
  (a < inject_Z 10)%Q -> shrink fuel a = a.
Proof.
  intros H. destruct fuel; cbn [shrink]; [reflexivity|].
  destruct (Qle_bool (inject_Z 10) a) eqn:E; [|reflexivity].
  apply Qle_bool_iff in E. exfalso. apply (Qlt_irrefl a).
  eapply Qlt_le_trans; eauto.
Qed.

Lemma grow_lt (fuel : nat) :
  forall a, (a < inject_Z 10)%Q -> (grow fuel a < inject_Z 10)%Q.
Proof.
  induction fuel as [|f IH]; intros a H; cbn [grow]; [exact H|].
  destruct (Qle_bool (inject_Z 1) a) eqn:E; [exact H|].
  apply IH. apply Qle_bool_false in E. clear IH H.
  destruct a as [n d]. rewrite mul_ten. to_Z. lia.
Qed.

Lemma grow_ge (fuel : nat) :
  forall a, (inject_Z 1 <= a * pow10 fuel)%Q -> (inject_Z 1 <= grow fuel a)%Q.
Proof.
  induction fuel as [|f IH]; intros a H; cbn [grow].
  - destruct a as [n d]. unfold pow10, Qmult in H. to_Z.
    change (10 ^ Z.of_nat 0)%Z with 1%Z in H. lia.
  - destruct (Qle_bool (inject_Z 1) a) eqn:E; [now apply Qle_bool_iff|].
    apply IH. unfold pow10 in *. rewrite pow10_S in H.
    set (p := (10 ^ Z.of_nat f)%Z) in *. clearbody p. clear IH E.
    destruct a as [n d]. rewrite mul_ten. unfold Qmult in *. to_Z. lia.
Qed.

Lemma pow2_le_pow10 (k : Z) : (0 <= k -> 2 ^ k <= 10 ^ k)%Z.
Proof. intros H. apply Z.pow_le_mono_l. lia. Qed.

Lemma size_nat_bound (d : positive) :
  (Zpos d < 2 ^ Z.of_nat (Pos.size_nat d))%Z.
Proof.
  induction d as [d IH|d IH|]; cbn [Pos.size_nat];
    rewrite ?Nat2Z.inj_succ, ?Z.pow_succ_r by lia; lia.
Qed.

(** The fuel is enough: the leading digit of a positive number is a digit
    from 1 to 9. *)
Lemma leading_digit_range (a : Q) :
  (0 < a)%Q -> (1 <= leading_digit a <= 9)%Z.
Proof.
  intros Ha. unfold leading_digit.
  set (f1 := Z.to_nat (Z.log2 (Qnum a))). set (f2 := Pos.size_nat (Qden a)).
  assert (B : (inject_Z 1 <= grow f2 (shrink f1 a)
               /\ grow f2 (shrink f1 a) < inject_Z 10)%Q).
  { destruct (Qlt_le_dec a (inject_Z 1)) as [L|L].
    - assert (L10 : (a < inject_Z 10)%Q)
        by (eapply Qlt_trans; [exact L | reflexivity]).
      rewrite (shrink_small f1 a L10). split; [|now apply grow_lt].
      apply grow_ge. unfold f2, pow10.
      pose proof (size_nat_bound (Qden a)) as S.
      pose proof (pow2_le_pow10 (Z.of_nat (Pos.size_nat (Qden a)))
                    (Nat2Z.is_nonneg _)) as P.
      set (p := (10 ^ Z.of_nat (Pos.size_nat (Qden a)))%Z) in *.
      set (p2 := (2 ^ Z.of_nat (Pos.size_nat (Qden a)))%Z) in *.
      clearbody p p2. clear L L10 f1 f2.
      destruct a as [n d]. unfold Qmult. to_Z. nia.
    - assert (S1 : (inject_Z 1 <= shrink f1 a)%Q) by now apply shrink_ge.
      assert (S2 : (shrink f1 a < inject_Z 10)%Q).
      { apply shrink_lt. unfold f1, pow10.
        assert (Hn : (0 < Qnum a)%Z).
        { destruct a as [n d]. to_Z. lia. }
        pose proof (Z.log2_spec (Qnum a) Hn) as [_ U].
        pose proof (Z.log2_nonneg (Qnum a)) as N.
        pose proof (pow2_le_pow10 (Z.succ (Z.log2 (Qnum a))) ltac:(lia)) as P.
        rewrite Nat2Z.inj_succ, Z2Nat.id by lia.
        set (p := (10 ^ Z.succ (Z.log2 (Qnum a)))%Z) in *.
        set (p2 := (2 ^ Z.succ (Z.log2 (Qnum a)))%Z) in *.
        clearbody p p2. clear S1 L f1 f2 N.
        destruct a as [n d]. to_Z. nia. }
      split; [|now apply grow_lt].
      destruct f2; cbn [grow]; [exact S1|].
      destruct (Qle_bool (inject_Z 1) (shrink f1 a)) eqn:E; [exact S1|].
      apply Qle_bool_false in E. exfalso. apply (Qlt_irrefl (inject_Z 1)).
      eapply Qle_lt_trans; eauto. }
  destruct B as [B1 B2]. split.
  - change 1%Z with (Qfloor (inject_Z 1)). now apply Qfloor_resp_le.
  - assert (H : (Qfloor (grow f2 (shrink f1 a)) < 10)%Z); [|lia].
    rewrite Zlt_Qlt. eapply Qle_lt_trans; [apply Qfloor_le | exact B2].
Qed.

(* ------------------------------------------------------------------ *)
(** ** [parseInt] on Numbers *)

Lemma Qabs_zero_inv (q : Qc) : Qeq_bool (Qabs q) (inject_Z 0) = true -> q = 0%Qc.
Proof.
  intros H. apply Qeq_bool_eq in H. apply Qc_is_canon.
  destruct q as [[n d] Hc]. unfold Qeq in *. cbn in *. lia.
Qed.

Lemma zero_strict_neq_number (q : Qc) :
  q <> 0%Qc -> zero_strict_neq (VNum (Num q)) = true.
Proof.
  intros Hq. cbn [zero_strict_neq strict_eq zero ofZ].
  destruct (Qc_eq_bool (Q2Qc (inject_Z 0)) q) eqn:E; [|reflexivity].
  apply Qc_eq_bool_correct in E. exfalso. apply Hq. symmetry. exact E.
Qed.

(** In the positional range the digits read are the integer part. *)
Lemma parseInt_positional (q : Qc) :
  q <> 0%Qc -> positional q = true ->
  parseInt (VNum (Num q)) = ofZ (Qtrunc q).
Proof.
  intros Hq Hp. cbn [parseInt parseInt_number].
  destruct (Qeq_bool (Qabs q) (inject_Z 0)) eqn:E.
  - now apply Qabs_zero_inv in E.
  - unfold positional in Hp. cbv zeta. now rewrite Hp.
Qed.

Lemma offset_px_positional (q : Qc) :
  q <> 0%Qc -> positional q = true ->
  offset_px (VNum (Num q)) = ofZ (Qtrunc q).
Proof.
  intros Hq Hp. unfold offset_px.
  now rewrite (zero_strict_neq_number q Hq), (parseInt_positional q Hq Hp).
Qed.

Lemma offset_px_zero : offset_px (VNum zero) = zero.
Proof. reflexivity. Qed.

(** [Qtrunc] rounds toward zero: down for a non-negative number, up for a
    negative one. *)
Lemma Qtrunc_toward_zero (q : Q) :
  Qtrunc q = if Qle_bool (inject_Z 0) q then Qfloor q else Qceiling q.
Proof.
  destruct q as [n d]. unfold Qtrunc, Qceiling, Qfloor, Qle_bool, Qopp.
  cbn [Qnum Qden inject_Z]. rewrite Z.mul_1_r. cbn [Z.mul].
  destruct (Z.leb_spec 0 n) as [Hn|Hn].
  - apply Z.quot_div_nonneg; lia.
  - rewrite <- (Z.opp_involutive n) at 1.
    rewrite Z.quot_opp_l by lia. f_equal.
    apply Z.quot_div_nonneg; lia.
Qed.

Lemma digits_stop (acc : option Z) (rest : string) :
  stops rest -> digits acc rest = acc.
Proof. destruct rest as [|c r]; cbn; [reflexivity | now intros ->]. Qed.

Lemma digits_uint (u : Decimal.uint) :
  forall (acc : Z) (rest : string),
    (0 <= acc)%Z -> stops rest ->
    digits (Some acc) (NilEmpty.string_of_uint u ++ rest)
    = Some (Z.of_nat (Nat.of_uint_acc u (Z.to_nat acc))).
Proof.
  induction u; intros acc rest Ha Hr;
    cbn [NilEmpty.string_of_uint append Nat.of_uint_acc];
    [rewrite (digits_stop _ _ Hr); f_equal; lia | ..].
  all: cbn [digits];
    match goal with
    | |- context [digit_of ?c] =>
        let v := eval vm_compute in (digit_of c) in
        change (digit_of c) with v
    end;
    cbv beta iota; (rewrite IHu by (assumption || lia)); do 2 f_equal;
    rewrite Nat.tail_mul_spec; f_equal; lia.
Qed.

Lemma to_uint_digit (n : nat) : Nat.to_uint n <> Decimal.Nil.
Proof.
  intros E. pose proof (Unsigned.of_to n) as H. rewrite E in H.
  cbn in H. subst n. discriminate E.
Qed.

(** [parseInt] reads back the digits of a natural number, whatever
    non-digit text follows, and its opposite after a minus sign. *)
Lemma parseInt_decimal (n : nat) (rest : string) :
  stops rest ->
  parseInt_string (decimal n ++ rest) = ofZ (Z.of_nat n) /\
  parseInt_string (String "-" (decimal n ++ rest)) = ofZ (- Z.of_nat n).
Proof.
  intros Hr. unfold decimal.
  pose proof (to_uint_digit n) as Hn. pose proof (Unsigned.of_to n) as Hv.
  unfold Nat.of_uint in Hv.
  pose proof (digits_uint (Nat.to_uint n) 0 rest (Z.le_refl 0) Hr) as Hd.
  change (Z.to_nat 0) with 0%nat in Hd. rewrite Hv in Hd.
  assert (Hd' : digits None (NilEmpty.string_of_uint (Nat.to_uint n) ++ rest)
                = Some (Z.of_nat n)).
  { rewrite <- Hd. destruct (Nat.to_uint n); [congruence | reflexivity ..]. }
  split.
  - unfold parseInt_string.
    destruct (Nat.to_uint n) eqn:E; [congruence | ..];
      cbn [NilEmpty.string_of_uint append skip_white] in *;
      match goal with
      | |- context [is_white ?c] =>
          let v := eval vm_compute in (is_white c) in
          change (is_white c) with v
      end;
      cbv beta iota; rewrite Hd'; f_equal; lia.
  - unfold parseInt_string. cbn [skip_white]. cbv beta iota.
    change (is_white "-") with false. cbv iota.
    rewrite Hd'. reflexivity.
Qed.

Lemma or_else_zero (a : number) : is_nan a = false -> or_else a zero = a.
Proof.
  destruct a as [|x]; [discriminate|]. intros _.
  unfold or_else. cbn [truthy].
  destruct (Qc_eq_bool x (Q2Qc 0)) eqn:E; [|reflexivity].
  apply Qc_eq_bool_correct in E. subst x. reflexivity.
Qed.

(** A margin written as so many pixels is read as that number. *)
Lemma margin_px_pixels (n : nat) :
  margin_px (Some (decimal n ++ "px")) = ofZ (Z.of_nat n) /\
  margin_px (Some (String "-" (decimal n ++ "px"))) = ofZ (- Z.of_nat n).
Proof.
  unfold margin_px. cbn [to_string].
  destruct (parseInt_decimal n "px" eq_refl) as [-> ->].
  split; now apply or_else_zero.
Qed.

Lemma Qred_inject_Z (z : Z) : Qred (inject_Z z) = inject_Z z.
Proof.
  unfold Qred, inject_Z.
  pose proof (Z.ggcd_gcd z 1) as G.
  pose proof (Z.ggcd_correct_divisors z 1) as D.
  destruct (Z.ggcd z 1) as (g, (r1, r2)). cbn [fst snd] in *.
  rewrite Z.gcd_1_r in G. subst g. destruct D as [D1 D2].
  rewrite Z.mul_1_l in D1, D2. now subst.
Qed.

(** An integer offset below 10^21 in magnitude is added as it is. *)
Lemma offset_px_integer (z : Z) :
  (Z.abs z < 10 ^ 21)%Z -> offset_px (VNum (ofZ z)) = ofZ z.
Proof.
  intros Hz. destruct (Z.eq_dec z 0) as [->|Hn]; [reflexivity|].
  unfold ofZ at 1.
  assert (T : this (Q2Qc (inject_Z z)) = inject_Z z) by apply Qred_inject_Z.
  rewrite offset_px_positional.
  - unfold ofZ, Qtrunc. rewrite T. cbn [Qnum Qden inject_Z].
    now rewrite Z.quot_1_r.
  - intros E. apply (f_equal this) in E. rewrite T in E.
    cbn in E. injection E as E. contradiction.
  - unfold positional. rewrite T. unfold Qabs, inject_Z, Qle_bool.
    cbn [Qnum Qden]. apply andb_true_iff. split.
    + apply Z.leb_le. lia.
    + apply negb_true_iff, Z.leb_gt. lia.
Qed.

(* ------------------------------------------------------------------ *)
(** ** Coordinates *)

Lemma Num_ext (x y : Qc) : Qeq x y -> Num x = Num y.
Proof. intros H. f_equal. now apply Qc_is_canon. Qed.

Lemma Num_diff (x y : Qc) : ~ Qeq x y -> Num x <> Num y.
Proof. intros H E. apply H. injection E as ->. reflexivity. Qed.

Lemma css_ext (p : string) (l1 t1 l2 t2 : number) :
  l1 = l2 -> t1 = t2 ->
  {| position := p; left := l1; top := t1 |}
  = {| position := p; left := l2; top := t2 |}.
Proof. now intros -> ->. Qed.

(** Closed goals on sample data: evaluate, then compare the fractions. *)
Ltac by_evaluation :=
  vm_compute;
  repeat match goal with
         | |- _ /\ _ => split
         | |- [_] = [_] => apply (f_equal (fun c => [c]))
         | |- Build_css _ _ _ = Build_css _ _ _ => apply css_ext
         | |- Num _ = Num _ => apply Num_ext; reflexivity
         | |- @eq Qc _ _ -> False =>
             let H := fresh in
             intro H; apply (f_equal this) in H; discriminate H
         | |- Num _ = Num _ -> False =>
             apply Num_diff; let H := fresh in
             intro H; vm_compute in H; discriminate H
         | |- _ = _ => reflexivity
         end.

(** C1, amended: for every target geometry, element to move, options and
    pair of two-letter codes, [left] is the target's x, minus the mover's
    horizontal shift (half its width when its code is horizontally centred,
    its width when right-classed, nothing when left-classed), plus the
    target's horizontal shift (likewise, on the target's width), minus the
    mover's left margin as [parseInt] reads it (n for a style of n pixels,
    zero when no number is read), plus the x offset as [parseInt] reads it
    (the offset itself when it is an integer below 10^21 in magnitude,
    nothing when it is the Number zero); [top] is the same over heights,
    vertical classes, the top margin and the y offset. *)
Theorem C1_coordinates (eX eY eW eH : number) (a b c d : ascii) (op : opts)
    (t : element) :
  is_letter a = true -> is_letter b = true ->
  is_letter c = true -> is_letter d = true ->
  value_of (each_callback eX eY eW eH (code2 a b) (code2 c d) op t) =
  {| position := "absolute";
     left := Spec.coordinate eX
               (shift (Spec.x_class a b) (outerWidth t))
               (shift (Spec.x_class c d) eW)
               (margin_px (margin_left t)) (offset_px (op_x op));
     top := Spec.coordinate eY
               (shift (Spec.y_class a b) (outerHeight t))
               (shift (Spec.y_class c d) eH)
               (margin_px (margin_top t)) (offset_px (op_y op)) |} /\
  (forall n : nat, margin_px (Some (decimal n ++ "px")) = ofZ (Z.of_nat n)) /\
  (forall m, parseInt_string (to_string m) = NaN -> margin_px m = zero) /\
  (forall z : Z, (Z.abs z < 10 ^ 21)%Z -> offset_px (VNum (ofZ z)) = ofZ z).
Proof.
  intros Ha Hb Hc Hd. split; [|split; [|split]].
  - rewrite each_callback_value.
    now rewrite !classify_x_code, !classify_y_code by assumption.
  - intros n. apply margin_px_pixels.
  - intros m Hm. unfold margin_px. now rewrite Hm.
  - apply offset_px_integer.
Qed.

Lemma C1_coordinates_witness :
  is_letter "t" = true /\ is_letter "l" = true /\
  is_letter "r" = true /\ is_letter "b" = true /\
  value_of (each_callback (ofZ 100) (ofZ 200) (ofZ 80) (ofZ 60) "tl" "rb"
              default_op mover_40x20) =
  {| position := "absolute";
     left := Spec.coordinate (ofZ 100) zero (ofZ 80) zero zero;
     top := Spec.coordinate (ofZ 200) zero (ofZ 60) zero zero |}.
Proof.
  repeat (split; [reflexivity|]).
  exact (proj1 (C1_coordinates (ofZ 100) (ofZ 200) (ofZ 80) (ofZ 60)
                  "t" "l" "r" "b" default_op mover_40x20
                  eq_refl eq_refl eq_refl eq_refl)).
Defined.

(** C1 as stated fails: with an x offset of one half, codes ["tl"] and
    margins of zero, the code leaves [left] at 100, where the offset itself
    added would give 100.5. *)
Lemma C1_counterexample :
  aligned [mover_40x20] target_80x60 (Some "tl")
          (Some (only_x (VNum (Num one_half))))
  = [{| position := "absolute"; left := ofZ 100; top := ofZ 200 |}] /\
  Spec.coordinate (ofZ 100) zero zero zero (Num one_half) <> ofZ 100.
Proof. by_evaluation. Qed.

(** C7: a mover of 40 x 20 without margins, a target of 80 x 60 at
    (100, 200), no offsets: ["tl"] gives left 100, top 200, and ["tlr"]
    gives left 180, top 230. *)
Theorem C7_scenarios :
  aligned [mover_40x20] target_80x60 (Some "tl") None
  = [{| position := "absolute"; left := ofZ 100; top := ofZ 200 |}] /\
  aligned [mover_40x20] target_80x60 (Some "tlr") None
  = [{| position := "absolute"; left := ofZ 180; top := ofZ 230 |}].
Proof. by_evaluation. Qed.

(** C6, amended: with margins of zero and offsets of zero, the position
    ["c"], the empty position and a missing position all give, in the
    order in which the code computes them,
    left = (x - (mover width)/2) + width/2 and
    top = (y - (mover height)/2) + height/2 over the target's rectangle,
    and so does the explicit code ["cccc"]. *)
Theorem C6_centre (t elem : element) (o : option options) :
  margin_px (margin_left t) = zero -> margin_px (margin_top t) = zero ->
  op_x (merged o) = VNum zero -> op_y (merged o) = VNum zero ->
  let centred :=
    {| position := "absolute";
       left := ((offset_left elem - half (outerWidth t))
                + half (outerWidth elem))%num;
       top := ((offset_top elem - half (outerHeight t))
               + half (outerHeight elem))%num |} in
  aligned [t] elem (Some "c") o = [centred] /\
  aligned [t] elem (Some "") o = [centred] /\
  aligned [t] elem None o = [centred] /\
  aligned [t] elem (Some "cccc") o = [centred].
Proof.
  intros Ml Mt Ox Oy centred.
  assert (E : value_of (each_callback (offset_left elem) (offset_top elem)
                          (outerWidth elem) (outerHeight elem) "cc" "cc"
                          (merged o) t) = centred).
  { rewrite each_callback_value. unfold centred, Spec.coordinate.
    rewrite Ml, Mt, Ox, Oy, offset_px_zero.
    change (classify rXM rXR "cc") with ACenter.
    change (classify rYM rYB "cc") with ACenter.
    cbn [shift]. now rewrite !sub_zero_r, !add_zero_r. }
  unfold aligned, alignWith.
  change (resolve (Some "c")) with ("cc", "cc").
  change (resolve (Some "")) with ("cc", "cc").
  change (resolve None) with ("cc", "cc").
  change (resolve (Some "cccc")) with ("cc", "cc").
  cbn [map]. rewrite E. auto.
Qed.

Lemma C6_centre_witness :
  margin_px (margin_left mover_40x20) = zero /\
  margin_px (margin_top mover_40x20) = zero /\
  op_x (merged None) = VNum zero /\ op_y (merged None) = VNum zero /\
  aligned [mover_40x20] target_80x60 (Some "c") None =
  [{| position := "absolute";
      left := ((ofZ 100 - half (ofZ 40)) + half (ofZ 80))%num;
      top := ((ofZ 200 - half (ofZ 20)) + half (ofZ 60))%num |}].
Proof.
  repeat (split; [reflexivity|]).
  exact (proj1 (C6_centre mover_40x20 target_80x60 None
                  eq_refl eq_refl eq_refl eq_refl)).
Defined.

(** The callback over the exact Numbers is [each_callback]. *)
Lemma each_callback_exact (eX eY eW eH : number) (pT pE : string)
    (op : opts) (t : element) :
  value_of (each_callback eX eY eW eH pT pE op t) =
  let '(l, u) :=
    callback_in number JSNumber.add JSNumber.sub half (fun n => n)
      eX eY eW eH pT pE op (outerWidth t) (outerHeight t)
      (margin_left t) (margin_top t) in
  {| position := "absolute"; left := l; top := u |}.
Proof.
  unfold each_callback, callback_in, tested, bind, ret, value_of.
  destruct (test rXM pT), (test rXR pT), (test rXM pE), (test rXR pE),
    (test rYM pT), (test rYB pT), (test rYM pE), (test rYB pE);
    reflexivity.
Qed.

(** C6 as stated fails on binary64 numbers: for a target of width 80.1 at
    x = 100 and an element of width 40.1, with margins and offsets of zero
    and the codes of the position ["c"], the callback computes
    (100 - 20.05) + 40.05 = 120, while x + width/2 - (mover width)/2 is
    the next float above 120; the two are not equal. *)
Lemma C6_counterexample :
  PrimFloat.eqb Binary64.centred_left (Binary64.of_Z 120) = true /\
  PrimFloat.ltb (Binary64.of_Z 120)
    (Binary64.centre_formula Binary64.x100 Binary64.w80_1 Binary64.w40_1)
  = true /\
  PrimFloat.eqb Binary64.centred_left
    (Binary64.centre_formula Binary64.x100 Binary64.w80_1 Binary64.w40_1)
  = false.
Proof. vm_compute. repeat split. Qed.

(** C5, amended: a margin that is missing or from which [parseInt] reads
    no number counts as zero, and an offset that is missing keeps its
    default, the Number zero, for which nothing is added; an offset that is
    present is not coerced.  So, with a geometry free of NaN and offsets
    from which [parseInt] reads a number, [left] and [top] are never
    NaN. *)
Theorem C5_no_nan (eX eY eW eH : number) (pT pE : string) (op : opts)
    (t : element) :
  is_nan eX = false -> is_nan eY = false ->
  is_nan eW = false -> is_nan eH = false ->
  is_nan (outerWidth t) = false -> is_nan (outerHeight t) = false ->
  is_nan (parseInt (op_x op)) = false ->
  is_nan (parseInt (op_y op)) = false ->
  (forall m, is_nan (margin_px m) = false) /\
  (forall m, parseInt_string (to_string m) = NaN -> margin_px m = zero) /\
  (forall o, given_x o = None -> offset_px (op_x (merged (Some o))) = zero) /\
  (forall o, given_y o = None -> offset_px (op_y (merged (Some o))) = zero) /\
  offset_px (op_x (merged None)) = zero /\
  offset_px (op_y (merged None)) = zero /\
  is_nan (left (value_of (each_callback eX eY eW eH pT pE op t))) = false /\
  is_nan (top (value_of (each_callback eX eY eW eH pT pE op t))) = false.
Proof.
  intros HX HY HW HH Hw Hh Hx Hy.
  assert (M : forall m, is_nan (margin_px m) = false)
    by (intros m; apply or_else_zero_not_nan).
  assert (O : forall v, is_nan (parseInt v) = false ->
                        is_nan (offset_px v) = false).
  { intros v Hv. unfold offset_px. now destruct (zero_strict_neq v). }
  split; [exact M|]. split.
  { intros m Hm. unfold margin_px. now rewrite Hm. }
  split. { intros o Ho. cbn [merged extend op_x]. now rewrite Ho. }
  split. { intros o Ho. cbn [merged extend op_y]. now rewrite Ho. }
  split; [reflexivity|]. split; [reflexivity|].
  rewrite each_callback_value. cbn [left top]. unfold Spec.coordinate.
  split;
    repeat first [apply add_not_nan | apply sub_not_nan | apply shift_not_nan];
    auto.
Qed.

Lemma C5_no_nan_witness :
  is_nan (ofZ 100) = false /\ is_nan (ofZ 200) = false /\
  is_nan (ofZ 80) = false /\ is_nan (ofZ 60) = false /\
  is_nan (outerWidth mover_40x20) = false /\
  is_nan (outerHeight mover_40x20) = false /\
  is_nan (parseInt (op_x default_op)) = false /\
  is_nan (parseInt (op_y default_op)) = false /\
  is_nan (left (value_of (each_callback (ofZ 100) (ofZ 200) (ofZ 80) (ofZ 60)
                            "tl" "rr" default_op mover_40x20))) = false.
Proof.
  repeat (split; [reflexivity|]).
  exact (proj1 (proj2 (proj2 (proj2 (proj2 (proj2 (proj2
           (C5_no_nan (ofZ 100) (ofZ 200) (ofZ 80) (ofZ 60) "tl" "rr"
              default_op mover_40x20
              eq_refl eq_refl eq_refl eq_refl eq_refl eq_refl
              eq_refl eq_refl)))))))).
Defined.

(** C5 as stated fails: the x offset ["abc"] is not coerced to zero, and
    [left] becomes NaN. *)
Lemma C5_counterexample :
  aligned [mover_40x20] target_80x60 (Some "tl")
          (Some (only_x (VStr "abc")))
  = [{| position := "absolute"; left := NaN; top := ofZ 200 |}].
Proof. by_evaluation. Qed.

(** C8, amended: an offset that is the Number zero leaves its coordinate
    as the geometry and the margin give it, nothing being added; a
    non-zero Number offset of magnitude at least 10^-6 and below 10^21 is
    first truncated toward zero to an integer, which is then added; the
    target's corner and the widths, heights and halves that enter the
    coordinate are not rounded. *)
Theorem C8_offsets (eX eY eW eH : number) (pT pE : string) (v : value)
    (ab : bool) (t : element) (q : Qc) :
  q <> 0%Qc -> positional q = true ->
  let styled x y :=
    value_of (each_callback eX eY eW eH pT pE
                {| op_x := x; op_y := y; appendToBody := ab |} t) in
  let base_left :=
    (((eX - shift (classify rXM rXR pT) (outerWidth t))
      + shift (classify rXM rXR pE) eW)
     - margin_px (margin_left t))%num in
  let base_top :=
    (((eY - shift (classify rYM rYB pT) (outerHeight t))
      + shift (classify rYM rYB pE) eH)
     - margin_px (margin_top t))%num in
  left (styled (VNum zero) v) = base_left /\
  top (styled v (VNum zero)) = base_top /\
  left (styled (VNum (Num q)) v) = (base_left + ofZ (Qtrunc q))%num /\
  top (styled v (VNum (Num q))) = (base_top + ofZ (Qtrunc q))%num /\
  Qtrunc q = (if Qle_bool (inject_Z 0) q then Qfloor q else Qceiling q).
Proof.
  intros Hq Hp styled base_left base_top. unfold styled.
  rewrite !each_callback_value. cbn [left top op_x op_y].
  unfold Spec.coordinate.
  rewrite (offset_px_positional q Hq Hp), offset_px_zero, !add_zero_r.
  repeat split. apply Qtrunc_toward_zero.
Qed.

Lemma C8_offsets_witness :
  minus_5_7 <> 0%Qc /\ positional minus_5_7 = true /\
  Qtrunc minus_5_7 = (-5)%Z /\
  left (value_of (each_callback (ofZ 100) (ofZ 200) (ofZ 80) (ofZ 60)
                    "tl" "tl"
                    {| op_x := VNum (Num minus_5_7); op_y := VNum zero;
                       appendToBody := false |} mover_40x20))
  = ((((ofZ 100 - shift (classify rXM rXR "tl") (ofZ 40))
       + shift (classify rXM rXR "tl") (ofZ 80))
      - margin_px (Some "0px")) + ofZ (Qtrunc minus_5_7))%num.
Proof.
  assert (Hq : minus_5_7 <> 0%Qc).
  { intro H. apply (f_equal this) in H. discriminate H. }
  split; [exact Hq|]. split; [reflexivity|]. split; [reflexivity|].
  exact (proj1 (proj2 (proj2
           (C8_offsets (ofZ 100) (ofZ 200) (ofZ 80) (ofZ 60) "tl" "tl"
              (VNum zero) false mover_40x20 minus_5_7 Hq eq_refl)))).
Defined.

(** C8 as stated fails: the offset 5e-7 is not zero and truncates to zero,
    yet 5 is added, since [parseInt] reads the digit of ["5e-7"]. *)
Lemma C8_counterexample :
  five_e_minus_7 <> 0%Qc /\ Qtrunc five_e_minus_7 = 0%Z /\
  aligned [mover_40x20] target_80x60 (Some "tl")
          (Some (only_x (VNum (Num five_e_minus_7))))
  = [{| position := "absolute"; left := ofZ 105; top := ofZ 200 |}] /\
  aligned [mover_40x20] target_80x60 (Some "tl") None
  = [{| position := "absolute"; left := ofZ 100; top := ofZ 200 |}].
Proof. by_evaluation. Qed.

(* ------------------------------------------------------------------ *)
(** ** Further properties: styles *)

Section Geometry.

Local Open Scope num_scope.

Lemma style_value (eX eY eW eH : number) (pT pE : string) (op : opts)
    (t : element) :
  style eX eY eW eH pT pE op t =
  {| position := "absolute";
     left := Spec.coordinate eX
               (shift (classify rXM rXR pT) (outerWidth t))
               (shift (classify rXM rXR pE) eW)
               (margin_px (margin_left t)) (offset_px (op_x op));
     top := Spec.coordinate eY
               (shift (classify rYM rYB pT) (outerHeight t))
               (shift (classify rYM rYB pE) eH)
               (margin_px (margin_top t)) (offset_px (op_y op)) |}.
Proof. apply each_callback_value. Qed.

Lemma aligned_styles (this : list element) (elem : element)
    (pos : option string) (o : option options) :
  aligned this elem pos o =
  map (style (offset_left elem) (offset_top elem)
             (outerWidth elem) (outerHeight elem)
             (fst (resolve pos)) (snd (resolve pos)) (merged o)) this.
Proof.
  unfold aligned, alignWith, style. destruct (resolve pos) as [pT pE].
  cbn [fst snd]. now rewrite map_map.
Qed.

End Geometry.

(* ------------------------------------------------------------------ *)
(** ** Further properties: offsets and margins *)

Section OffsetsAndMargins.

Local Open Scope num_scope.

Lemma add_nan_r (a : number) : a + NaN = NaN.
Proof. now destruct a. Qed.

(** [parseInt] reads an integer numeral back, whatever non-digit text
    follows it. *)
Lemma parseInt_numeral (z : Z) (rest : string) :
  stops rest -> parseInt_string (numeral z ++ rest) = ofZ z.
Proof.
  intros Hr. destruct (parseInt_decimal (Z.abs_nat z) rest Hr) as [P N].
  destruct z as [|p|p]; cbn [numeral append].
  - exact P.
  - rewrite P. f_equal. f_equal. f_equal. lia.
  - rewrite N. f_equal. f_equal. f_equal. lia.
Qed.

Lemma offset_px_string (s : string) : offset_px (VStr s) = parseInt_string s.
Proof. reflexivity. Qed.

Lemma margin_px_numeral (z : Z) (rest : string) :
  stops rest -> margin_px (Some (numeral z ++ rest)) = ofZ z.
Proof.
  intros Hr. unfold margin_px. cbn [to_string].
  rewrite (parseInt_numeral z rest Hr). now apply or_else_zero.
Qed.

Lemma parseInt_number_not_nan (q : Qc) : is_nan (parseInt_number (Num q)) = false.
Proof.
  cbn [parseInt_number]. cbv zeta.
  destruct (Qeq_bool (Qabs q) (inject_Z 0)); [reflexivity|].
  destruct (Qle_bool (1 # 1000000) (Qabs q)
            && negb (Qle_bool (inject_Z (10 ^ 21)) (Qabs q))); reflexivity.
Qed.

Lemma offset_px_unreadable (v : value) :
  is_nan (parseInt v) = true -> offset_px v = NaN.
Proof.
  intros H. unfold offset_px. destruct v as [[|q]|s|b]; cbn [zero_strict_neq].
  - reflexivity.
  - cbn [parseInt] in H. now rewrite parseInt_number_not_nan in H.
  - now destruct (parseInt (VStr s)).
  - now destruct (parseInt (VBool b)).
Qed.

(** X4: integer offsets below 10^21 in magnitude move every style by
    exactly the offsets: the result is the one without options, plus [a]
    on [left] and [b] on [top]. *)
Theorem X4_integer_offsets (this : list element) (elem : element)
    (pos : option string) (a b : Z) :
  (Z.abs a < 10 ^ 21)%Z -> (Z.abs b < 10 ^ 21)%Z ->
  aligned this elem pos (Some (both_offsets (VNum (ofZ a)) (VNum (ofZ b))))
  = map (moved_by (ofZ a) (ofZ b)) (aligned this elem pos None).
Proof.
  intros Ha Hb. rewrite !aligned_styles, map_map. apply map_ext. intros t.
  rewrite !style_value. unfold moved_by, Spec.coordinate.
  cbn [merged extend default_op both_offsets given_x given_y op_x op_y
       position left top].
  rewrite (offset_px_integer a Ha), (offset_px_integer b Hb), offset_px_zero.
  now rewrite !add_zero_r.
Qed.

Lemma X4_integer_offsets_witness :
  (Z.abs 5 < 10 ^ 21)%Z /\ (Z.abs (-7) < 10 ^ 21)%Z /\
  aligned [mover_40x20] target_80x60 (Some "tltr")
          (Some (both_offsets (VNum (ofZ 5)) (VNum (ofZ (-7)))))
  = map (moved_by (ofZ 5) (ofZ (-7)))
        (aligned [mover_40x20] target_80x60 (Some "tltr") None).
Proof.
  split; [reflexivity|]. split; [reflexivity|].
  exact (X4_integer_offsets [mover_40x20] target_80x60 (Some "tltr") 5 (-7)
           eq_refl eq_refl).
Defined.

(** X5: offsets given as strings are read by their leading integer: the
    strings of [a] and [b], each followed by any text that does not start
    with a digit (nothing, ["px"], [".5"]), move every style by exactly [a]
    and [b]. *)
Theorem X5_string_offsets (this : list element) (elem : element)
    (pos : option string) (a b : Z) (ra rb : string) :
  stops ra -> stops rb ->
  aligned this elem pos
          (Some (both_offsets (VStr (numeral a ++ ra)) (VStr (numeral b ++ rb))))
  = map (moved_by (ofZ a) (ofZ b)) (aligned this elem pos None).
Proof.
  intros Ha Hb. rewrite !aligned_styles, map_map. apply map_ext. intros t.
  rewrite !style_value. unfold moved_by, Spec.coordinate.
  cbn [merged extend default_op both_offsets given_x given_y op_x op_y
       position left top].
  rewrite !offset_px_string, (parseInt_numeral a ra Ha),
    (parseInt_numeral b rb Hb), offset_px_zero.
  now rewrite !add_zero_r.
Qed.

Lemma X5_string_offsets_witness :
  stops "px" /\ stops ".5" /\
  aligned [mover_40x20] target_80x60 (Some "c")
          (Some (both_offsets (VStr "12px") (VStr "-3.5")))
  = map (moved_by (ofZ 12) (ofZ (-3)))
        (aligned [mover_40x20] target_80x60 (Some "c") None).
Proof.
  split; [reflexivity|]. split; [reflexivity|].
  exact (X5_string_offsets [mover_40x20] target_80x60 (Some "c") 12 (-3)
           "px" ".5" eq_refl eq_refl).
Defined.

(** X6: margins are read by their leading integer, whatever the unit or
    fraction that follows: for margins written as [a] and [b], each
    followed by text that does not start with a digit, the style is the
    target's corner, less the mover's shift, plus the target's shift,
    less exactly [a] (left) or [b] (top), plus the offset. *)
Theorem X6_margins (eX eY eW eH : number) (pT pE : string) (op : opts)
    (t : element) (a b : Z) (ra rb : string) :
  stops ra -> stops rb ->
  style eX eY eW eH pT pE op
        (with_margins t (Some (numeral a ++ ra)) (Some (numeral b ++ rb)))
  = {| position := "absolute";
       left := Spec.coordinate eX
                 (shift (classify rXM rXR pT) (outerWidth t))
                 (shift (classify rXM rXR pE) eW)
                 (ofZ a) (offset_px (op_x op));
       top := Spec.coordinate eY
                (shift (classify rYM rYB pT) (outerHeight t))
                (shift (classify rYM rYB pE) eH)
                (ofZ b) (offset_px (op_y op)) |}.
Proof.
  intros Ha Hb. rewrite style_value.
  cbn [with_margins margin_left margin_top outerWidth outerHeight].
  now rewrite (margin_px_numeral a ra Ha), (margin_px_numeral b rb Hb).
Qed.

Lemma X6_margins_witness :
  stops "px" /\ stops ".9em" /\
  style (ofZ 100) (ofZ 200) (ofZ 80) (ofZ 60) "tl" "rb" default_op
        (with_margins mover_40x20 (Some "10px") (Some "-2.9em"))
  = {| position := "absolute";
       left := Spec.coordinate (ofZ 100)
                 (shift (classify rXM rXR "tl") (ofZ 40))
                 (shift (classify rXM rXR "rb") (ofZ 80))
                 (ofZ 10) (offset_px (VNum zero));
       top := Spec.coordinate (ofZ 200)
                (shift (classify rYM rYB "tl") (ofZ 20))
                (shift (classify rYM rYB "rb") (ofZ 60))
                (ofZ (-2)) (offset_px (VNum zero)) |}.
Proof.
  split; [reflexivity|]. split; [reflexivity|].
  exact (X6_margins (ofZ 100) (ofZ 200) (ofZ 80) (ofZ 60) "tl" "rb"
           default_op mover_40x20 10 (-2) "px" ".9em" eq_refl eq_refl).
Defined.

(** X7: an offset from which [parseInt] reads no number (a boolean, a
    string without leading digits, NaN) is not guarded as the margins are:
    it turns its coordinate into NaN, whatever the geometry. *)
Theorem X7_unreadable_offset (eX eY eW eH : number) (pT pE : string)
    (op : opts) (t : element) :
  is_nan (parseInt (op_x op)) = true ->
  left (style eX eY eW eH pT pE op t) = NaN.
Proof.
  intros H. rewrite style_value. cbn [left]. unfold Spec.coordinate.
  rewrite (offset_px_unreadable _ H). apply add_nan_r.
Qed.

Lemma X7_unreadable_offset_witness :
  is_nan (parseInt (VBool true)) = true /\
  left (style (ofZ 100) (ofZ 200) (ofZ 80) (ofZ 60) "tl" "tl"
          {| op_x := VBool true; op_y := VNum zero; appendToBody := false |}
          mover_40x20) = NaN.
Proof.
  split; [reflexivity|].
  exact (X7_unreadable_offset (ofZ 100) (ofZ 200) (ofZ 80) (ofZ 60) "tl" "tl"
           {| op_x := VBool true; op_y := VNum zero; appendToBody := false |}
           mover_40x20 eq_refl).
Defined.

End OffsetsAndMargins.

(* ------------------------------------------------------------------ *)
(** ** Further properties: position strings *)

Lemma horizontal_cases (h : ascii) (c : axis_class) :
  Doc.horizontal h = Some c ->
  (h = "l"%char /\ c = AStart) \/ (h = "r"%char /\ c = AEnd)
  \/ (h = "c"%char /\ c = ACenter) \/ (h = "m"%char /\ c = ACenter).
Proof.
  unfold Doc.horizontal.
  destruct (Ascii.eqb h "l") eqn:L; [apply Ascii.eqb_eq in L; intros [= <-]; auto|].
  destruct (Ascii.eqb h "r") eqn:R; [apply Ascii.eqb_eq in R; intros [= <-]; auto|].
  destruct (Ascii.eqb h "c") eqn:C; [apply Ascii.eqb_eq in C; intros [= <-]; auto|].
  destruct (Ascii.eqb h "m") eqn:M; [apply Ascii.eqb_eq in M; intros [= <-]; auto 6|].
  discriminate.
Qed.

Lemma vertical_cases (v : ascii) (c : axis_class) :
  Doc.vertical v = Some c ->
  (v = "t"%char /\ c = AStart) \/ (v = "b"%char /\ c = AEnd)
  \/ (v = "c"%char /\ c = ACenter) \/ (v = "m"%char /\ c = ACenter).
Proof.
  unfold Doc.vertical.
  destruct (Ascii.eqb v "t") eqn:L; [apply Ascii.eqb_eq in L; intros [= <-]; auto|].
  destruct (Ascii.eqb v "b") eqn:R; [apply Ascii.eqb_eq in R; intros [= <-]; auto|].
  destruct (Ascii.eqb v "c") eqn:C; [apply Ascii.eqb_eq in C; intros [= <-]; auto|].
  destruct (Ascii.eqb v "m") eqn:M; [apply Ascii.eqb_eq in M; intros [= <-]; auto 6|].
  discriminate.
Qed.

(** X9: a position of two letters, one naming a horizontal place (l, c or
    m, r) and one a vertical place (t, c or m, b), in either order, is
    valid, stands for both elements, and is classed as its letters say:
    the patterns agree with the header comment on all the points. *)
Theorem X9_two_letter_points (h v : ascii) (cx cy : axis_class) :
  Doc.horizontal h = Some cx -> Doc.vertical v = Some cy ->
  resolve (Some (code2 h v)) = (code2 h v, code2 h v) /\
  resolve (Some (code2 v h)) = (code2 v h, code2 v h) /\
  classify rXM rXR (code2 h v) = cx /\ classify rYM rYB (code2 h v) = cy /\
  classify rXM rXR (code2 v h) = cx /\ classify rYM rYB (code2 v h) = cy.
Proof.
  intros Hh Hv.
  destruct (horizontal_cases h cx Hh) as [[-> ->]|[[-> ->]|[[-> ->]|[-> ->]]]];
    destruct (vertical_cases v cy Hv) as [[-> ->]|[[-> ->]|[[-> ->]|[-> ->]]]];
    repeat split; reflexivity.
Qed.

Lemma X9_two_letter_points_witness :
  Doc.horizontal "r" = Some AEnd /\ Doc.vertical "b" = Some AEnd /\
  classify rXM rXR "br" = AEnd /\ classify rYM rYB "br" = AEnd.
Proof.
  split; [reflexivity|]. split; [reflexivity|].
  destruct (X9_two_letter_points "r" "b" AEnd AEnd eq_refl eq_refl)
    as (_ & _ & _ & _ & Hx & Hy).
  split; [exact Hx | exact Hy].
Defined.

(** X10: a position of one letter matches the centre points for c or m,
    and the mid-points of the named side otherwise: the style is the one
    of the classes [Doc.side] on both elements. *)
Theorem X10_one_letter_sides (a : ascii) (t elem : element)
    (o : option options) :
  is_letter a = true ->
  aligned [t] elem (Some (String a EmptyString)) o =
  [{| position := "absolute";
      left := Spec.coordinate (offset_left elem)
                (shift (fst (Doc.side a)) (outerWidth t))
                (shift (fst (Doc.side a)) (outerWidth elem))
                (margin_px (margin_left t)) (offset_px (op_x (merged o)));
      top := Spec.coordinate (offset_top elem)
               (shift (snd (Doc.side a)) (outerHeight t))
               (shift (snd (Doc.side a)) (outerHeight elem))
               (margin_px (margin_top t)) (offset_px (op_y (merged o))) |}].
Proof.
  intros Ha. rewrite aligned_styles. cbn [map]. rewrite style_value.
  apply member_cases in Ha.
  destruct Ha as [->|[->|[->|[->|[->| ->]]]]]; reflexivity.
Qed.

Lemma X10_one_letter_sides_witness :
  is_letter "t" = true /\
  aligned [mover_40x20] target_80x60 (Some "t") None =
  [{| position := "absolute";
      left := Spec.coordinate (ofZ 100) (half (ofZ 40)) (half (ofZ 80))
                zero zero;
      top := Spec.coordinate (ofZ 200) zero zero zero zero |}].
Proof.
  split; [reflexivity|].
  exact (X10_one_letter_sides "t" mover_40x20 target_80x60 None eq_refl).
Defined.

(** X11: the 81 point-to-point combinations of the header comment exist:
    for any horizontal and vertical place on the element and on the
    target, a valid position of four letters resolves to two codes of
    exactly these classes. *)
Theorem X11_all_combinations (cx cy dx dy : axis_class) :
  let s := String (Doc.h_letter cx) (String (Doc.v_letter cy)
             (String (Doc.h_letter dx) (String (Doc.v_letter dy) EmptyString)))
  in
  test rPos s = true /\
  classify rXM rXR (fst (resolve (Some s))) = cx /\
  classify rYM rYB (fst (resolve (Some s))) = cy /\
  classify rXM rXR (snd (resolve (Some s))) = dx /\
  classify rYM rYB (snd (resolve (Some s))) = dy.
Proof. destruct cx, cy, dx, dy; repeat split; reflexivity. Qed.

(** X12: the codes are a normal form of the position: whatever the
    position argument, the four letters [pT] then [pE] are a valid position
    that resolves to [pT] and [pE] again. *)
Theorem X12_normal_form (pos : option string) :
  test rPos (fst (resolve pos) ++ snd (resolve pos)) = true /\
  resolve (Some (fst (resolve pos) ++ snd (resolve pos))) = resolve pos.
Proof.
  destruct (resolve_codes pos) as (a & b & c & d & Ha & Hb & Hc & Hd & E).
  rewrite E. cbn [fst snd code2 append].
  assert (V : test rPos (String a (String b (String c (String d "")))) = true).
  { rewrite rPos_spec.
    cbn [String.length letters list_ascii_of_string forallb Nat.leb andb].
    now rewrite Ha, Hb, Hc, Hd. }
  split; [exact V|].
  change (String a (String b (code2 c d)))
    with (String a (String b (String c (String d "")))).
  now rewrite (resolve_valid _ V).
Qed.

Lemma is_letter_m_to_c (c : ascii) : is_letter (m_to_c c) = is_letter c.
Proof.
  unfold m_to_c. destruct (Ascii.eqb c "m") eqn:E; [|reflexivity].
  apply Ascii.eqb_eq in E. now subst.
Qed.

Lemma rPos_m_to_c (s : string) : test rPos (smap m_to_c s) = test rPos s.
Proof.
  rewrite !rPos_spec.
  assert (L : String.length (smap m_to_c s) = String.length s)
    by (induction s; cbn; congruence).
  assert (F : forallb is_letter (letters (smap m_to_c s))
              = forallb is_letter (letters s)).
  { clear L. unfold letters. induction s as [|c s IH]; [reflexivity|].
    cbn [smap list_ascii_of_string forallb].
    now rewrite is_letter_m_to_c, IH. }
  now rewrite L, F.
Qed.

Lemma classes_m_to_c (a b : ascii) :
  is_letter a = true -> is_letter b = true ->
  classify rXM rXR (code2 (m_to_c a) (m_to_c b)) = classify rXM rXR (code2 a b)
  /\ classify rYM rYB (code2 (m_to_c a) (m_to_c b))
     = classify rYM rYB (code2 a b).
Proof. intros Ha Hb. each_code Ha Hb; split; reflexivity. Qed.

(** X13: m is a synonym of c: a position with its m's written as c's
    gives the same styles. *)
Theorem X13_m_is_c (this : list element) (elem : element) (s : string)
    (o : option options) :
  aligned this elem (Some (smap m_to_c s)) o = aligned this elem (Some s) o.
Proof.
  rewrite !aligned_styles. apply map_ext. intros t. rewrite !style_value.
  destruct (test rPos s) eqn:V.
  - pose proof V as V'. rewrite <- rPos_m_to_c in V'.
    rewrite (resolve_valid _ V), (resolve_valid _ V').
    rewrite rPos_spec in V.
    destruct s as [|c1 [|c2 [|c3 [|c4 [|c5 s]]]]];
      cbn [String.length letters list_ascii_of_string forallb Nat.leb andb]
        in V; try discriminate V;
      repeat match type of V with
             | _ && _ = true => apply andb_true_iff in V; destruct V as [? V]
             end;
      cbn [smap split fst snd append];
      repeat match goal with
             | |- context [classify _ _ (String (m_to_c ?a)
                                          (String (m_to_c ?b) ""))] =>
                 change (String (m_to_c a) (String (m_to_c b) ""))
                   with (code2 (m_to_c a) (m_to_c b));
                 rewrite !(proj1 (classes_m_to_c a b ltac:(assumption)
                                    ltac:(assumption))),
                         !(proj2 (classes_m_to_c a b ltac:(assumption)
                                    ltac:(assumption)))
             end;
      reflexivity.
  - pose proof V as V'. rewrite <- rPos_m_to_c in V'.
    now rewrite (resolve_invalid (Some s) V),
      (resolve_invalid (Some (smap m_to_c s)) V').
Qed.






